(** * GullyLink: the realtime fan-out core of [gullylink/main.py]

    A shallow embedding of the connection manager, the websocket handler
    and the order endpoint, with the properties of the specification
    stated over it.

    The module-level tables [VENDORS] and [MENU] and the [manager]
    singleton are the fields of one [world] record; a coroutine is a
    function from the world to an [outcome], which is either a returned
    value or a raised exception, each with the world as the code left it.
    Coroutines are run one at a time: interleaving of several handlers at
    their [await] points is outside this model. *)

From Stdlib Require Import ZArith String List Lia SpecFloat.
From stdpp Require Import base option list gmap strings fin_maps.

Set Warnings "-register-all".

Local Open Scope string_scope.
Local Open Scope Z_scope.
Local Open Scope list_scope.

(** ** Values *)

(** A Python [float] is a binary64 value.  The program only stores and
    forwards floats, it never computes with them. *)
Definition float : Type := spec_float.

(** What [receive_json] can return and what [send_json] is given. *)
Inductive json : Type :=
| JNull
| JBool (b : bool)
| JInt (n : Z)
| JFloat (x : float)
| JStr (s : string)
| JArr (xs : list json)
| JObj (kvs : list (string * json)).

(** The exceptions the modelled code meets. *)
Inductive exn : Type :=
| WebSocketDisconnect
| KeyError (k : string)
| TypeError
| ValueError
| RuntimeError.

(** A [WebSocket] object is compared by identity; the handle stands for it. *)
Definition WebSocket : Type := nat.

(** The dict literal built in [place_order]. *)
Record order_data : Type := {
  o_id : Z;
  o_item : string;
  o_status : string;
  o_lat : float;
  o_lng : float
}.

(** One value of [VENDORS].  ["lat"] and ["lng"] start as floats and are
    overwritten with whatever a [location_update] carries. *)
Record vendor : Type := {
  v_id : string;
  v_name : string;
  v_lat : json;
  v_lng : json;
  v_icon : string;
  v_category : string;
  v_orders : list order_data
}.

Record menu_item : Type := { m_item : string; m_price : Z }.

(** The request body of [POST /api/order], after validation. *)
Record Order : Type := {
  vendor_id : string;
  item : string;
  customer_lat : float;
  customer_lng : float
}.

(** ** The world *)

(** [broken] is the transport: [broken !! c = Some e] when writing to [c]
    raises [e].  [delivered] is the wire: every message written to a
    socket, oldest first. *)
Record world : Type := {
  VENDORS : gmap string vendor;
  MENU : gmap string (list menu_item);
  active_connections : list WebSocket;
  broken : gmap WebSocket exn;
  delivered : list (WebSocket * json)
}.

Definition set_VENDORS (V : gmap string vendor) (w : world) : world :=
  {| VENDORS := V; MENU := MENU w;
     active_connections := active_connections w;
     broken := broken w; delivered := delivered w |}.

Definition set_active_connections (l : list WebSocket) (w : world) : world :=
  {| VENDORS := VENDORS w; MENU := MENU w;
     active_connections := l;
     broken := broken w; delivered := delivered w |}.

Definition set_delivered (d : list (WebSocket * json)) (w : world) : world :=
  {| VENDORS := VENDORS w; MENU := MENU w;
     active_connections := active_connections w;
     broken := broken w; delivered := d |}.

(** ** Coroutines: state and exceptions *)

Inductive outcome (A : Type) : Type :=
| Ret (a : A) (w : world)
| Raise (e : exn) (w : world).
Arguments Ret {A} a w.
Arguments Raise {A} e w.

Definition M (A : Type) : Type := world → outcome A.

#[export] Instance M_ret : MRet M := λ A a w, Ret a w.

#[export] Instance M_bind : MBind M := λ A B f m w,
  match m w with
  | Ret a w' => f a w'
  | Raise e w' => Raise e w'
  end.

Definition raise {A : Type} (e : exn) : M A := λ w, Raise e w.

Definition modify (f : world → world) : M unit := λ w, Ret () (f w).

(** The world an outcome ends in, returned or raised. *)
Definition final {A : Type} (o : outcome A) : world :=
  match o with
  | Ret _ w => w
  | Raise _ w => w
  end.

Definition raised {A : Type} (o : outcome A) : option exn :=
  match o with
  | Ret _ _ => None
  | Raise e _ => Some e
  end.

(** ** ConnectionManager *)

(** [list.remove(x)]: drops the first element equal to [x]; [None] stands
    for the [ValueError] it raises when there is none. *)
Fixpoint py_list_remove (x : WebSocket) (l : list WebSocket)
  : option (list WebSocket) :=
  match l with
  | [] => None
  | y :: l' =>
      if decide (y = x) then Some l'
      else (y ::.) <$> py_list_remove x l'
  end.

(** [await websocket.accept()], whose result [handshake] is the peer's. *)
Definition accept (handshake : option exn) : M unit :=
  match handshake with
  | Some e => raise e
  | None => mret ()
  end.

Definition connect (websocket : WebSocket) (handshake : option exn) : M unit :=
  accept handshake;;
  modify (λ w, set_active_connections (active_connections w ++ [websocket]) w).

Definition disconnect (websocket : WebSocket) : M unit := λ w,
  match py_list_remove websocket (active_connections w) with
  | Some l => Ret () (set_active_connections l w)
  | None => Raise ValueError w
  end.

Definition send_json (connection : WebSocket) (message : json) : M unit := λ w,
  match broken w !! connection with
  | Some e => Raise e w
  | None => Ret () (set_delivered (delivered w ++ [(connection, message)]) w)
  end.

(** A [for] loop whose body may raise. *)
Fixpoint for_each {A : Type} (body : A → M unit) (l : list A) : M unit :=
  match l with
  | [] => mret ()
  | x :: l' => body x;; for_each body l'
  end.

Definition broadcast (message : json) : M unit := λ w,
  for_each (λ connection, send_json connection message)
           (active_connections w) w.

(** ** The websocket handler *)

(** [d[key]] for a received value [d]: only a dict can be indexed by a
    string, and a dict only at a key it has. *)
Fixpoint dict_get (key : string) (kvs : list (string * json)) : option json :=
  match kvs with
  | [] => None
  | (k, v) :: kvs' => if String.eqb k key then Some v else dict_get key kvs'
  end.

Definition getitem (d : json) (key : string) : M json :=
  match d with
  | JObj kvs =>
      match dict_get key kvs with
      | Some v => mret v
      | None => raise (KeyError key)
      end
  | _ => raise TypeError
  end.

(** [x == s] for a string literal [s]. *)
Definition eq_str (x : json) (s : string) : bool :=
  match x with
  | JStr t => String.eqb t s
  | _ => false
  end.

(** [vendor_id in VENDORS]: the key found, if any.  Lists and dicts are
    unhashable; the other values are hashable and equal to no key. *)
Definition in_VENDORS (x : json) : M (option string) := λ w,
  match x with
  | JStr s =>
      match VENDORS w !! s with
      | Some _ => Ret (Some s) w
      | None => Ret None w
      end
  | JArr _ | JObj _ => Raise TypeError w
  | _ => Ret None w
  end.

Definition with_lat (x : json) (v : vendor) : vendor :=
  {| v_id := v_id v; v_name := v_name v; v_lat := x; v_lng := v_lng v;
     v_icon := v_icon v; v_category := v_category v; v_orders := v_orders v |}.

Definition with_lng (x : json) (v : vendor) : vendor :=
  {| v_id := v_id v; v_name := v_name v; v_lat := v_lat v; v_lng := x;
     v_icon := v_icon v; v_category := v_category v; v_orders := v_orders v |}.

Definition with_order (o : order_data) (v : vendor) : vendor :=
  {| v_id := v_id v; v_name := v_name v; v_lat := v_lat v; v_lng := v_lng v;
     v_icon := v_icon v; v_category := v_category v;
     v_orders := v_orders v ++ [o] |}.

(** [VENDORS[key][...] = ...] and [VENDORS[key]["orders"].append(...)]:
    an update of the vendor stored at [key], [KeyError] without one. *)
Definition update_vendor (key : string) (f : vendor → vendor) : M unit := λ w,
  match VENDORS w !! key with
  | Some v => Ret () (set_VENDORS (<[key := f v]> (VENDORS w)) w)
  | None => Raise (KeyError key) w
  end.

(** The body of the [while True] loop, after [receive_json] returned [data]. *)
Definition handle_message (data : json) : M unit :=
  type ← getitem data "type";
  if eq_str type "location_update" then
    vendor_id ← getitem data "id";
    found ← in_VENDORS vendor_id;
    match found with
    | Some key =>
        lat ← getitem data "lat";
        update_vendor key (with_lat lat);;
        lng ← getitem data "lng";
        update_vendor key (with_lng lng);;
        broadcast data
    | None => mret ()
    end
  else
    type' ← getitem data "type";
    if eq_str type' "order_update" then broadcast data
    else mret ().

(** How far a handler got. *)
Inductive run : Type :=
| Waiting (w : world)
| Returned (w : world)
| Failed (e : exn) (w : world).

Definition run_world (r : run) : world :=
  match r with
  | Waiting w => w
  | Returned w => w
  | Failed _ w => w
  end.

Definition terminated (r : run) : bool :=
  match r with
  | Waiting _ => false
  | _ => true
  end.

(** The loop over the socket's [inbox], the results of its successive
    [receive_json] calls: a value, or the exception the call raises.  The
    loop has no exit of its own: it ends by an exception, and on an
    exhausted inbox the handler is suspended in [receive_json]. *)
Fixpoint receive_loop (inbox : list (json + exn)) (w : world) : run :=
  match inbox with
  | [] => Waiting w
  | inr e :: _ => Failed e w
  | inl data :: inbox' =>
      match handle_message data w with
      | Ret _ w' => receive_loop inbox' w'
      | Raise e w' => Failed e w'
      end
  end.

Definition websocket_endpoint (websocket : WebSocket)
    (handshake : option exn) (inbox : list (json + exn)) (w : world) : run :=
  match connect websocket handshake w with
  | Raise e w1 => Failed e w1
  | Ret _ w1 =>
      match receive_loop inbox w1 with
      | Failed WebSocketDisconnect w2 =>
          match disconnect websocket w2 with
          | Ret _ w3 => Returned w3
          | Raise e w3 => Failed e w3
          end
      | r => r
      end
  end.

(** ** Order placement *)

(** [random.randint(a, b)]: an integer of [a..b], here the one picked out
    by the entropy [raw] the generator consumes.  Which integer of the
    range a call returns is the generator's business; the distribution is
    not modelled. *)
Definition randint (a b raw : Z) : Z := a + raw mod (b - a + 1).

Definition order_json (o : order_data) : json :=
  JObj [("id", JInt (o_id o)); ("item", JStr (o_item o));
        ("status", JStr (o_status o));
        ("lat", JFloat (o_lat o)); ("lng", JFloat (o_lng o))].

Definition new_order_message (key : string) (o : order_data) : json :=
  JObj [("type", JStr "new_order"); ("vendor_id", JStr key);
        ("order", order_json o)].

Definition place_order (order : Order) (raw : Z) : M json := λ w,
  match VENDORS w !! vendor_id order with
  | Some _ =>
      let order_data :=
        {| o_id := randint 1000 9999 raw;
           o_item := item order;
           o_status := "Pending";
           o_lat := customer_lat order;
           o_lng := customer_lng order |} in
      (update_vendor (vendor_id order) (with_order order_data);;
       broadcast (new_order_message (vendor_id order) order_data);;
       mret (JObj [("status", JStr "Order Placed");
                   ("order_id", JInt (o_id order_data))])) w
  | None => Ret (JObj [("status", JStr "Vendor not found")]) w
  end.

(** A run of requests to [POST /api/order], each with the entropy its
    [randint] call consumes.  A request that raises is answered with an
    error by the framework and the service goes on. *)
Fixpoint place_orders (reqs : list (Order * Z)) (w : world)
  : list (outcome json) :=
  match reqs with
  | [] => []
  | (order, raw) :: reqs' =>
      let o := place_order order raw w in
      o :: place_orders reqs' (final o)
  end.

(** The ["order_id"] of a success response. *)
Definition response_order_id (o : outcome json) : option Z :=
  match o with
  | Ret (JObj kvs) _ =>
      match dict_get "order_id" kvs with
      | Some (JInt n) => Some n
      | _ => None
      end
  | _ => None
  end.

(** The order ids handed out by a run of requests, in order. *)
Definition issued_ids (reqs : list (Order * Z)) (w : world) : list Z :=
  omap response_order_id (place_orders reqs w).

(** ** Vocabulary of the statements *)

(** One delivery of [message] to each of [l], in order. *)
Definition fan_out (message : json) (l : list WebSocket)
  : list (WebSocket * json) :=
  map (λ c, (c, message)) l.

(** Every registered socket accepts a write. *)
Definition sends_ok (w : world) : Prop :=
  ∀ c, c ∈ active_connections w → broken w !! c = None.

(** A value that can be looked up in a dict at all. *)
Definition hashable (x : json) : bool :=
  match x with
  | JArr _ | JObj _ => false
  | _ => true
  end.

(** [x] is no key of the vendor table. *)
Definition no_vendor (x : json) (w : world) : Prop :=
  ∀ s, x = JStr s → VENDORS w !! s = None.

(** The vendor as a [location_update] with [lat] and [lng] leaves it. *)
Definition moved (lat lng : json) (v : vendor) : vendor :=
  with_lng lng (with_lat lat v).

(** The menu, the registry and the transport are the same in both worlds. *)
Definition frame (w w' : world) : Prop :=
  MENU w' = MENU w ∧
  active_connections w' = active_connections w ∧
  broken w' = broken w.

Definition preserves {A : Type} (m : M A) : Prop :=
  ∀ w, frame w (final (m w)).

(** The world in which the handler's loop starts. *)
Definition connected (websocket : WebSocket) (w : world) : world :=
  final (connect websocket None w).

(** The exception by which the loop over [inbox] ends, if it does. *)
Definition loop_exit (inbox : list (json + exn)) (w : world) : option exn :=
  match receive_loop inbox w with
  | Failed e _ => Some e
  | _ => None
  end.

(** The order [place_order] builds from the request and the draw. *)
Definition order_of (order : Order) (raw : Z) : order_data :=
  {| o_id := randint 1000 9999 raw;
     o_item := item order;
     o_status := "Pending";
     o_lat := customer_lat order;
     o_lng := customer_lng order |}.

Definition order_placed (n : Z) : json :=
  JObj [("status", JStr "Order Placed"); ("order_id", JInt n)].

Definition vendor_not_found : json :=
  JObj [("status", JStr "Vendor not found")].

(** The ["id"] of the order a message embeds. *)
Definition message_order_id (message : json) : option Z :=
  match message with
  | JObj kvs =>
      match dict_get "order" kvs with
      | Some (JObj o) =>
          match dict_get "id" o with
          | Some (JInt n) => Some n
          | _ => None
          end
      | _ => None
      end
  | _ => None
  end.

Definition message_type (message : json) : option json :=
  match message with
  | JObj kvs => dict_get "type" kvs
  | _ => None
  end.

(** The id each request of a run is given by its draw. *)
Definition drawn_ids (reqs : list (Order * Z)) : list Z :=
  map (λ r, randint 1000 9999 r.2) reqs.

(** Every request of the run gets a success response. *)
Definition all_placed (reqs : list (Order * Z)) (w : world) : Prop :=
  Forall (λ o, is_Some (response_order_id o)) (place_orders reqs w).

(** ** The tables of the module *)

Definition f64 (m : positive) (e : Z) : json := JFloat (S754_finite false m e).

Definition mk_vendor (key name : string) (lat lng : json)
    (icon category : string) : vendor :=
  {| v_id := key; v_name := name; v_lat := lat; v_lng := lng;
     v_icon := icon; v_category := category; v_orders := [] |}.

Definition VENDORS0 : gmap string vendor :=
  list_to_map
    [("v1", mk_vendor "v1" "Chai Point"
              (f64 8054096836101040 (-48)) (f64 5433100369213260 (-46))
              "☕" "Beverages");
     ("v2", mk_vendor "v2" "Burger Singh"
              (f64 8053815361124329 (-48)) (f64 5433170737957437 (-46))
              "🍔" "Fast Food");
     ("v3", mk_vendor "v3" "Sharma Sweets"
              (f64 8054265721087066 (-48)) (f64 5433030000469082 (-46))
              "🍬" "Sweets");
     ("v4", mk_vendor "v4" "Pizza Hut Mobile"
              (f64 8054406458575421 (-48)) (f64 5433241106701615 (-46))
              "🍕" "Italian");
     ("v5", mk_vendor "v5" "Gully Momos"
              (f64 8053280558668579 (-48)) (f64 5432959631724904 (-46))
              "🥟" "Street Food")].

Definition mk_item (name : string) (price : Z) : menu_item :=
  {| m_item := name; m_price := price |}.

Definition MENU0 : gmap string (list menu_item) :=
  list_to_map
    [("v1", [mk_item "Masala Chai" 20; mk_item "Bun Maska" 40]);
     ("v2", [mk_item "Veggie Burger" 80; mk_item "Fries" 60]);
     ("v3", [mk_item "Rasgulla" 30; mk_item "Samosa" 15]);
     ("v4", [mk_item "Margherita Pizza" 150; mk_item "Garlic Bread" 90]);
     ("v5", [mk_item "Steamed Momos" 50; mk_item "Fried Momos" 60])].

(** The module as loaded: the two tables, no connection, nothing sent. *)
Definition world0 : world :=
  {| VENDORS := VENDORS0; MENU := MENU0; active_connections := [];
     broken := ∅; delivered := [] |}.

(** The same module with the sockets [conns] registered. *)
Definition serving (conns : list WebSocket) : world :=
  set_active_connections conns world0.

(** ** Sample messages, orders and worlds *)

Definition location_update (vendor : json) (lat lng : json) : json :=
  JObj [("type", JStr "location_update"); ("id", vendor);
        ("lat", lat); ("lng", lng)].

Definition hello : json := JObj [("type", JStr "order_update")].

(** Three clients, the second of which has gone away. *)
Definition second_gone : world :=
  {| VENDORS := VENDORS0; MENU := MENU0;
     active_connections := [1; 2; 3]%nat;
     broken := {[ 2%nat := RuntimeError ]};
     delivered := [] |}.

Definition nowhere : json :=
  location_update (JStr "v9") (f64 8055813833458975 (-48))
                  (f64 5433170737957437 (-46)).

(** Vendor [v1] reports a new position; two clients are connected. *)
Definition v1_moves : json :=
  location_update (JStr "v1") (f64 8055813833458975 (-48))
                  (f64 5433170737957437 (-46)).

(** An order for vendor [v1], and one for a vendor the table lacks. *)
Definition chai : Order :=
  {| vendor_id := "v1"; item := "Masala Chai";
     customer_lat := S754_finite false 8055813833458975 (-48);
     customer_lng := S754_finite false 5433170737957437 (-46) |}.

Definition stranger : Order :=
  {| vendor_id := "v9"; item := "Masala Chai";
     customer_lat := S754_finite false 8055813833458975 (-48);
     customer_lng := S754_finite false 5433170737957437 (-46) |}.

(** ** The read-only routes *)

(** [GET /api/vendors]: the table itself. *)
Definition get_vendors : M (gmap string vendor) := λ w, Ret (VENDORS w) w.

(** [GET /api/menu/{vendor_id}]: [MENU.get(vendor_id, [])]. *)
Definition get_menu (vendor_id : string) : M (list menu_item) := λ w,
  Ret (default [] (MENU w !! vendor_id)) w.

(** ** Vocabulary of the further statements *)

Definition returned {A : Type} (o : outcome A) : option A :=
  match o with
  | Ret a _ => Some a
  | Raise _ _ => None
  end.

(** [m] leaves every world in relation [R] with the world it ends in. *)
Definition keeps {A : Type} (R : world → world → Prop) (m : M A) : Prop :=
  ∀ w, R w (final (m w)).

(** All of a vendor but its position. *)
Definition static (v : vendor)
  : string * string * string * string * list order_data :=
  (v_id v, v_name v, v_icon v, v_category v, v_orders v).

(** Same menu table, same vendors, each with the same identity, name,
    icon, category and orders. *)
Definition tables_kept (w w' : world) : Prop :=
  MENU w' = MENU w ∧
  ∀ key, static <$> VENDORS w' !! key = static <$> VENDORS w !! key.

(** The world after a run of requests to [POST /api/order]. *)
Definition orders_world (reqs : list (Order * Z)) (w : world) : world :=
  foldl (λ w r, final (place_order r.1 r.2 w)) w reqs.

(** The orders that the requests of a run name for vendor [key]. *)
Definition orders_for (key : string) (reqs : list (Order * Z))
  : list order_data :=
  map (λ r, order_of r.1 r.2) (filter (λ r, vendor_id r.1 = key) reqs).

(** The first [n] registered connections. *)
Definition first_connections (n : nat) (w : world) : list WebSocket :=
  take n (active_connections w).

(** The inbox in which the dicts [updates] arrive one after the other. *)
Definition arriving (updates : list (list (string * json)))
  : list (json + exn) :=
  map (λ kvs, inl (JObj kvs)) updates.

(** The world once each of [updates], in turn, has been written to every
    registered connection. *)
Definition forwarded (updates : list (list (string * json))) (w : world)
  : world :=
  set_delivered
    (delivered w
     ++ concat (map (λ kvs, fan_out (JObj kvs) (active_connections w))
                    updates))
    w.

(** Two status updates of an order, as a vendor's client would send them. *)
Definition accepted_then_rejected : list (list (string * json)) :=
  [[("type", JStr "order_update"); ("status", JStr "Accepted")];
   [("type", JStr "order_update"); ("status", JStr "Rejected")]].

(** A [location_update] that lacks its ["lng"]. *)
Definition half_move : json :=
  JObj [("type", JStr "location_update"); ("id", JStr "v1");
        ("lat", f64 8055813833458975 (-48))].

(** A message of a type the handler has no branch for. *)
Definition ping : json := JObj [("type", JStr "ping"); ("id", JStr "v1")].

(** * Properties *)

(** ** The monad *)

Lemma bind_Ret {A B : Type} (m : M A) (k : A → M B) w a w1 :
  m w = Ret a w1 → (m ≫= k) w = k a w1.
Proof. intros H. unfold mbind, M_bind. by rewrite H. Qed.

Lemma set_delivered_id w : set_delivered (delivered w) w = w.
Proof. by destruct w. Qed.

(** ** The registry *)

Lemma py_list_remove_absent (x : WebSocket) (l : list WebSocket) : x ∉ l → py_list_remove x l = None.
Proof.
  induction l as [|y l IH]; intros Hx; simpl; [done|].
  apply not_elem_of_cons in Hx as [Hne Hx].
  rewrite decide_False by congruence. by rewrite IH.
Qed.

Lemma py_list_remove_present (x : WebSocket) (l : list WebSocket) :
  x ∈ l → ∃ l1 l2, l = l1 ++ x :: l2 ∧ (x ∉ l1) ∧
                   py_list_remove x l = Some (l1 ++ l2).
Proof.
  induction l as [|y l IH]; intros Hx; [by apply elem_of_nil in Hx|].
  simpl. destruct (decide (y = x)) as [->|Hne].
  - exists [], l. split_and!; [done | apply not_elem_of_nil | done].
  - apply elem_of_cons in Hx as [->|Hx]; [done|].
    destruct (IH Hx) as (l1 & l2 & -> & Hl1 & ->).
    exists (y :: l1), l2. split_and!; [done | | done].
    apply not_elem_of_cons. split; [congruence | done].
Qed.

Lemma py_list_remove_last (x : WebSocket) (l : list WebSocket) : x ∉ l → py_list_remove x (l ++ [x]) = Some l.
Proof.
  induction l as [|y l IH]; intros Hx; simpl.
  - by rewrite decide_True.
  - apply not_elem_of_cons in Hx as [Hne Hx].
    rewrite decide_False by congruence. by rewrite IH.
Qed.

(** C3, as the code has it: [disconnect] of a connection that is not in the
    registry raises [ValueError], with the registry and the rest of the
    world as they were. *)
Theorem disconnect_absent_raises (websocket : WebSocket) (w : world) :
  websocket ∉ active_connections w →
  disconnect websocket w = Raise ValueError w.
Proof.
  intros Habs. unfold disconnect. by rewrite py_list_remove_absent.
Qed.

Lemma disconnect_absent_raises_witness :
  (7%nat ∉ active_connections (serving [1; 2]%nat)) ∧
  disconnect 7%nat (serving [1; 2]%nat) = Raise ValueError (serving [1; 2]%nat).
Proof.
  assert (H : 7%nat ∉ active_connections (serving [1; 2]%nat)).
  { simpl. rewrite !not_elem_of_cons. split_and!; [lia | lia | apply not_elem_of_nil]. }
  split; [exact H | exact (disconnect_absent_raises 7%nat _ H)].
Defined.

(** C3 as the specification words it fails: removing a connection that is
    not registered is not a silent no-op, it raises. *)
Lemma disconnect_absent_not_silent :
  ¬ (raised (disconnect 7%nat (serving [1; 2]%nat)) = None ∧
     active_connections (final (disconnect 7%nat (serving [1; 2]%nat)))
       = active_connections (serving [1; 2]%nat)).
Proof. intros [H _]. vm_compute in H. discriminate. Qed.

(** A present connection goes, at its first occurrence only. *)
Lemma disconnect_present websocket w :
  websocket ∈ active_connections w →
  ∃ l1 l2, active_connections w = l1 ++ websocket :: l2 ∧ (websocket ∉ l1) ∧
           disconnect websocket w = Ret () (set_active_connections (l1 ++ l2) w).
Proof.
  intros Hin. destruct (py_list_remove_present _ _ Hin) as (l1 & l2 & E & Hl1 & R).
  exists l1, l2. unfold disconnect. by rewrite R.
Qed.

(** Removing twice a connection registered once: the second call raises. *)
Lemma disconnect_twice websocket w w1 :
  NoDup (active_connections w) →
  disconnect websocket w = Ret () w1 →
  disconnect websocket w1 = Raise ValueError w1.
Proof.
  intros Hnd H. unfold disconnect in *.
  enough (Hout' : websocket ∉ active_connections w1)
    by (by rewrite py_list_remove_absent).
  destruct (decide (websocket ∈ active_connections w)) as [Hin|Hout].
  - destruct (py_list_remove_present _ _ Hin) as (l1 & l2 & E & Hl1 & R).
    rewrite R in H. injection H as <-. simpl.
    rewrite E in Hnd. apply NoDup_app in Hnd as (_ & Hdisj & Hnd2).
    apply NoDup_cons in Hnd2 as [Hl2 _].
    rewrite elem_of_app. by intros [?|?].
  - by rewrite py_list_remove_absent in H.
Qed.

(** ** Broadcast *)

Lemma elem_of_fan_out message l c m :
  (c, m) ∈ fan_out message l ↔ c ∈ l ∧ m = message.
Proof.
  unfold fan_out. rewrite list_elem_of_fmap. split.
  - intros (c' & [= -> ->] & Hin). done.
  - intros [Hin ->]. eauto.
Qed.

Section for_each_send.
Variable message : json.

Let send : WebSocket → M unit := λ c, send_json c message.

Lemma for_each_app (l1 l2 : list WebSocket) w :
  for_each send (l1 ++ l2) w = (for_each send l1;; for_each send l2) w.
Proof.
  revert w. induction l1 as [|c l1 IH]; intros w; simpl; [done|].
  unfold mbind, M_bind. destruct (send c w) as [[] w1|e w1]; [|done].
  rewrite IH. done.
Qed.

(** While the sockets accept the writes, the loop delivers to each. *)
Lemma for_each_send_ok (l : list WebSocket) w :
  (∀ c, c ∈ l → broken w !! c = None) →
  for_each send l w
  = Ret () (set_delivered (delivered w ++ fan_out message l) w).
Proof.
  revert w. induction l as [|c l IH]; intros w Hok; simpl.
  - by rewrite app_nil_r, set_delivered_id.
  - unfold mbind, M_bind, send at 1, send_json.
    rewrite (Hok c) by apply list_elem_of_here.
    rewrite IH; simpl.
    + by rewrite <- app_assoc.
    + intros c' Hc'. apply Hok. by apply list_elem_of_further.
Qed.

(** The first write that raises ends the loop. *)
Lemma for_each_send_raise (l : list WebSocket) c e w :
  broken w !! c = Some e →
  for_each send (c :: l) w = Raise e w.
Proof.
  intros Hc. simpl. unfold mbind, M_bind, send, send_json. by rewrite Hc.
Qed.

(** Whatever happens, the loop touches the wire only. *)
Lemma for_each_send_frame (l : list WebSocket) w :
  ∃ d, final (for_each send l w) = set_delivered d w.
Proof.
  revert w. induction l as [|c l IH]; intros w; simpl.
  - exists (delivered w). by rewrite set_delivered_id.
  - unfold mbind, M_bind, send at 1, send_json.
    destruct (broken w !! c) as [e|].
    + exists (delivered w). by rewrite set_delivered_id.
    + destruct (IH (set_delivered (delivered w ++ [(c, message)]) w))
        as [d Hd].
      exists d. by rewrite Hd.
Qed.
End for_each_send.

Lemma broadcast_ok message w :
  sends_ok w →
  broadcast message w
  = Ret () (set_delivered
              (delivered w ++ fan_out message (active_connections w)) w).
Proof. intros Hok. unfold broadcast. by apply for_each_send_ok. Qed.

Lemma broadcast_frame message w :
  ∃ d, final (broadcast message w) = set_delivered d w.
Proof. unfold broadcast. apply for_each_send_frame. Qed.

(** C2, as the code has it: when the write to connection [k] is the first
    to fail, the connections registered before [k] have received the
    message, neither [k] nor any connection after it has, the failure's
    exception leaves [broadcast], and the registry, [k] included, is as it
    was. *)
Theorem broadcast_stops_at_failure
    (message : json) (before after : list WebSocket) (k : WebSocket)
    (e : exn) (w : world) :
  active_connections w = before ++ k :: after →
  (∀ c, c ∈ before → broken w !! c = None) →
  broken w !! k = Some e →
  broadcast message w
  = Raise e (set_delivered (delivered w ++ fan_out message before) w).
Proof.
  intros Hreg Hbefore Hk. unfold broadcast. rewrite Hreg, for_each_app.
  erewrite bind_Ret by (by apply for_each_send_ok).
  by apply for_each_send_raise.
Qed.

Lemma broadcast_stops_at_failure_witness :
  broadcast hello second_gone
  = Raise RuntimeError (set_delivered [(1%nat, hello)] second_gone).
Proof.
  apply (broadcast_stops_at_failure hello [1%nat] [3%nat] 2%nat RuntimeError
           second_gone).
  - reflexivity.
  - intros c Hc. apply list_elem_of_singleton in Hc as ->. reflexivity.
  - reflexivity.
Defined.

(** C2 as the specification words it fails: client 3 is healthy and gets
    nothing, and client 2 is still registered. *)
Lemma broadcast_failure_not_isolated :
  let w' := final (broadcast hello second_gone) in
  ¬ (∀ c, c ∈ active_connections second_gone → c ≠ 2%nat →
          (c, hello) ∈ delivered w') ∧
  ¬ (2%nat ∉ active_connections w').
Proof.
  split.
  - intros H. specialize (H 3%nat). vm_compute in H.
    assert (Hin : (3%nat, hello) ∈ [(1%nat, hello)]).
    { apply H; [|lia]. do 2 apply list_elem_of_further. apply list_elem_of_here. }
    apply list_elem_of_singleton in Hin. discriminate.
  - intros Habs. apply Habs. vm_compute.
    apply list_elem_of_further, list_elem_of_here.
Qed.

(** ** Inbound messages *)

Lemma getitem_Some kvs key v w :
  dict_get key kvs = Some v → getitem (JObj kvs) key w = Ret v w.
Proof. intros H. unfold getitem. by rewrite H. Qed.

Lemma update_vendor_Some key f v w :
  VENDORS w !! key = Some v →
  update_vendor key f w = Ret () (set_VENDORS (<[key := f v]> (VENDORS w)) w).
Proof. intros H. unfold update_vendor. by rewrite H. Qed.

(** C1, as the code has it: a [location_update] whose vendor id is no key
    of the vendor table changes nothing and is delivered to nobody; it is
    dropped in silence, or with a [TypeError] when the id is a list or a
    dict. *)
Theorem location_update_unknown_vendor_dropped
    (kvs : list (string * json)) (type vendor : json) (w : world) :
  dict_get "type" kvs = Some type →
  eq_str type "location_update" = true →
  dict_get "id" kvs = Some vendor →
  no_vendor vendor w →
  handle_message (JObj kvs) w
  = if hashable vendor then Ret () w else Raise TypeError w.
Proof.
  intros Hty Hloc Hid Hno. unfold handle_message.
  erewrite bind_Ret by (by apply getitem_Some). rewrite Hloc.
  erewrite bind_Ret by (by apply getitem_Some).
  unfold mbind, M_bind, in_VENDORS.
  destruct vendor as [ | | | |s| | ]; simpl; try done.
  by rewrite (Hno s).
Qed.

Lemma location_update_unknown_vendor_dropped_witness :
  handle_message nowhere (serving [1; 2]%nat) = Ret () (serving [1; 2]%nat).
Proof.
  apply (location_update_unknown_vendor_dropped _ (JStr "location_update")
           (JStr "v9") (serving [1; 2]%nat)).
  - reflexivity.
  - reflexivity.
  - reflexivity.
  - intros s [= <-]. reflexivity.
Defined.

(** C1 as the specification words it fails: with an unknown vendor id no
    client is sent the message. *)
Lemma location_update_unknown_vendor_not_broadcast :
  let w := serving [1; 2]%nat in
  let w' := final (handle_message nowhere w) in
  no_vendor (JStr "v9") w ∧
  ¬ (VENDORS w' = VENDORS w ∧
     ∀ c, c ∈ active_connections w → (c, nowhere) ∈ delivered w').
Proof.
  split.
  - intros s [= <-]. reflexivity.
  - intros [_ H]. specialize (H 1%nat). vm_compute in H.
    eapply elem_of_nil, H, list_elem_of_here.
Qed.

(** The coordinates are stored before anything is sent: up to there the
    handler is [broadcast] in a world with the vendor moved. *)
Lemma location_update_known_vendor kvs type key lat lng v w :
  dict_get "type" kvs = Some type →
  eq_str type "location_update" = true →
  dict_get "id" kvs = Some (JStr key) →
  VENDORS w !! key = Some v →
  dict_get "lat" kvs = Some lat →
  dict_get "lng" kvs = Some lng →
  handle_message (JObj kvs) w
  = broadcast (JObj kvs)
      (set_VENDORS (<[key := moved lat lng v]> (VENDORS w)) w).
Proof.
  intros Hty Hloc Hid Hv Hlat Hlng. unfold handle_message.
  erewrite bind_Ret by (by apply getitem_Some). rewrite Hloc.
  erewrite bind_Ret by (by apply getitem_Some).
  erewrite bind_Ret by (unfold in_VENDORS; by rewrite Hv).
  cbv beta iota.
  erewrite bind_Ret by (by apply getitem_Some).
  erewrite bind_Ret by (by apply update_vendor_Some).
  erewrite bind_Ret by (by apply getitem_Some).
  erewrite bind_Ret
    by (apply update_vendor_Some; simpl; apply lookup_insert_eq).
  simpl. by rewrite insert_insert_eq.
Qed.

(** C5, as the code has it: a [location_update] for a vendor of the table,
    with a [lat] and a [lng], stores exactly these two values as the
    vendor's coordinates, whatever the sockets do; and when the registered
    sockets accept the writes it returns after one delivery of the message
    as received to each registered connection, the sender among them. *)
Theorem location_update_stored_and_echoed
    (kvs : list (string * json)) (type lat lng : json) (key : string)
    (v : vendor) (sender : WebSocket) (w : world) :
  dict_get "type" kvs = Some type →
  eq_str type "location_update" = true →
  dict_get "id" kvs = Some (JStr key) →
  VENDORS w !! key = Some v →
  dict_get "lat" kvs = Some lat →
  dict_get "lng" kvs = Some lng →
  sender ∈ active_connections w →
  let w' := final (handle_message (JObj kvs) w) in
  (∃ v', VENDORS w' !! key = Some v' ∧ v_lat v' = lat ∧ v_lng v' = lng) ∧
  (sends_ok w →
   handle_message (JObj kvs) w = Ret () w' ∧
   delivered w'
   = delivered w ++ fan_out (JObj kvs) (active_connections w) ∧
   (∀ c, c ∈ active_connections w → (c, JObj kvs) ∈ delivered w') ∧
   (sender, JObj kvs) ∈ delivered w').
Proof.
  intros Hty Hloc Hid Hv Hlat Hlng Hsender w'. subst w'.
  rewrite (location_update_known_vendor kvs type key lat lng v w) by done.
  split.
  - destruct (broadcast_frame (JObj kvs)
                (set_VENDORS (<[key := moved lat lng v]> (VENDORS w)) w))
      as [d ->].
    exists (moved lat lng v). simpl. by rewrite lookup_insert_eq.
  - intros Hok. rewrite broadcast_ok by done. simpl.
    assert (Hall : ∀ c, c ∈ active_connections w →
              (c, JObj kvs)
                ∈ delivered w ++ fan_out (JObj kvs) (active_connections w)).
    { intros c Hc. apply elem_of_app. right. by apply elem_of_fan_out. }
    split_and!; [done|done|done|by apply Hall].
Qed.

(** X11: the coordinates are stored also when a write then fails. *)
Lemma location_update_stored_anyway kvs type key lat lng v w :
  dict_get "type" kvs = Some type →
  eq_str type "location_update" = true →
  dict_get "id" kvs = Some (JStr key) →
  VENDORS w !! key = Some v →
  dict_get "lat" kvs = Some lat →
  dict_get "lng" kvs = Some lng →
  VENDORS (final (handle_message (JObj kvs) w))
  = <[key := moved lat lng v]> (VENDORS w).
Proof.
  intros. erewrite location_update_known_vendor by done.
  destruct (broadcast_frame (JObj kvs)
              (set_VENDORS (<[key := moved lat lng v]> (VENDORS w)) w))
    as [d ->].
  done.
Qed.

Lemma sends_ok_serving conns : sends_ok (serving conns).
Proof. intros c _. apply lookup_empty. Qed.

Lemma location_update_stored_and_echoed_witness :
  let w' := final (handle_message v1_moves (serving [1; 2]%nat)) in
  (∃ v', VENDORS w' !! "v1" = Some v' ∧
         v_lat v' = f64 8055813833458975 (-48) ∧
         v_lng v' = f64 5433170737957437 (-46)) ∧
  handle_message v1_moves (serving [1; 2]%nat) = Ret () w' ∧
  delivered w' = [(1%nat, v1_moves); (2%nat, v1_moves)] ∧
  (∀ c, c ∈ [1; 2]%nat → (c, v1_moves) ∈ delivered w') ∧
  (1%nat, v1_moves) ∈ delivered w'.
Proof.
  assert (Hv : VENDORS (serving [1; 2]%nat) !! "v1"
               = Some (mk_vendor "v1" "Chai Point"
                         (f64 8054096836101040 (-48))
                         (f64 5433100369213260 (-46))
                         "☕" "Beverages")) by (vm_compute; reflexivity).
  assert (Hs : 1%nat ∈ active_connections (serving [1; 2]%nat))
    by apply list_elem_of_here.
  destruct (location_update_stored_and_echoed
              [("type", JStr "location_update"); ("id", JStr "v1");
               ("lat", f64 8055813833458975 (-48));
               ("lng", f64 5433170737957437 (-46))]
              (JStr "location_update")
              (f64 8055813833458975 (-48)) (f64 5433170737957437 (-46))
              "v1" _ 1%nat (serving [1; 2]%nat)
              eq_refl eq_refl eq_refl Hv eq_refl eq_refl Hs) as [H1 H2].
  split; [exact H1 | exact (H2 (sends_ok_serving [1; 2]%nat))].
Defined.

(** C5 as the specification words it fails: with client 2 gone, the
    update of vendor [v1] sent while clients 1, 2 and 3 are registered is
    written to client 1 only; the handler raises and client 3, whose socket
    is sound, gets nothing. *)
Lemma location_update_echo_cut_short :
  let w' := final (handle_message v1_moves second_gone) in
  is_Some (VENDORS second_gone !! "v1") ∧
  raised (handle_message v1_moves second_gone) = Some RuntimeError ∧
  delivered w' = [(1%nat, v1_moves)] ∧
  broken second_gone !! 3%nat = None ∧
  ¬ (∀ c, c ∈ active_connections second_gone → (c, v1_moves) ∈ delivered w').
Proof.
  split_and!.
  - eexists. vm_compute. reflexivity.
  - vm_compute. reflexivity.
  - vm_compute. reflexivity.
  - reflexivity.
  - intros H. specialize (H 3%nat). vm_compute in H.
    assert (Hin : (3%nat, v1_moves) ∈ [(1%nat, v1_moves)]).
    { apply H. do 2 apply list_elem_of_further. apply list_elem_of_here. }
    apply list_elem_of_singleton in Hin. discriminate.
Qed.

(** ** What no operation but [connect] and [disconnect] touches *)

Lemma frame_refl w : frame w w.
Proof. done. Qed.

Lemma frame_trans w1 w2 w3 : frame w1 w2 → frame w2 w3 → frame w1 w3.
Proof.
  intros (?&?&?) (?&?&?). unfold frame. split_and!; congruence.
Qed.

Lemma preserves_ret {A : Type} (a : A) : preserves (mret a).
Proof. intros w. apply frame_refl. Qed.

Lemma preserves_raise {A : Type} (e : exn) : preserves (@raise A e).
Proof. intros w. apply frame_refl. Qed.

Lemma preserves_bind {A B : Type} (m : M A) (k : A → M B) :
  preserves m → (∀ a, preserves (k a)) → preserves (m ≫= k).
Proof.
  intros Hm Hk w. unfold mbind, M_bind.
  specialize (Hm w). destruct (m w) as [a w1|e w1]; simpl in *; [|done].
  eapply frame_trans; [exact Hm | apply Hk].
Qed.

Lemma preserves_getitem d key : preserves (getitem d key).
Proof.
  unfold getitem. destruct d; try apply preserves_raise.
  destruct (dict_get key kvs); [apply preserves_ret | apply preserves_raise].
Qed.

Lemma preserves_in_VENDORS x : preserves (in_VENDORS x).
Proof.
  intros w. unfold in_VENDORS.
  destruct x; try apply frame_refl. destruct (VENDORS w !! s); apply frame_refl.
Qed.

Lemma preserves_update_vendor key f : preserves (update_vendor key f).
Proof.
  intros w. unfold update_vendor. destruct (VENDORS w !! key); done.
Qed.

Lemma preserves_broadcast message : preserves (broadcast message).
Proof. intros w. destruct (broadcast_frame message w) as [d ->]. done. Qed.

Create HintDb preserves.
#[local] Hint Resolve preserves_ret preserves_raise preserves_getitem
  preserves_in_VENDORS preserves_update_vendor preserves_broadcast : preserves.

Ltac preserves_step :=
  first [ apply preserves_bind; [|intros ?]
        | match goal with
          | |- preserves (if ?b then _ else _) => destruct b
          | |- preserves (match ?x with Some _ => _ | None => _ end) =>
              destruct x
          end
        | solve [auto with preserves] ].

Lemma preserves_handle_message data : preserves (handle_message data).
Proof. unfold handle_message. repeat preserves_step. Qed.

Lemma receive_loop_frame inbox w : frame w (run_world (receive_loop inbox w)).
Proof.
  revert w. induction inbox as [|[data|e] inbox IH]; intros w; simpl;
    try apply frame_refl.
  pose proof (preserves_handle_message data w) as H.
  destruct (handle_message data w) as [[] w1|e w1]; simpl in *; [|done].
  eapply frame_trans; [exact H | apply IH].
Qed.

(** ** The handler's exits *)

Lemma receive_loop_not_Returned inbox w w' : receive_loop inbox w ≠ Returned w'.
Proof.
  revert w. induction inbox as [|[data|e] inbox IH]; intros w; simpl; try done.
  destruct (handle_message data w); [apply IH | done].
Qed.

(** C8, as the code has it: when the loop ends by a transport disconnect,
    that is by [WebSocketDisconnect], the handler takes its connection out
    of the registry and returns; the registry is then what it was before
    the connection was made. *)
Theorem websocket_endpoint_disconnect_releases
    (websocket : WebSocket) (inbox : list (json + exn)) (w : world) :
  websocket ∉ active_connections w →
  loop_exit inbox (connected websocket w) = Some WebSocketDisconnect →
  ∃ w', websocket_endpoint websocket None inbox w = Returned w' ∧
        (websocket ∉ active_connections w') ∧
        active_connections w' = active_connections w.
Proof.
  intros Hfresh Hexit. unfold websocket_endpoint, loop_exit, connected in *.
  simpl in *.
  pose proof (receive_loop_frame inbox
    (set_active_connections (active_connections w ++ [websocket]) w)) as Hfr.
  destruct (receive_loop _ _) as [w2|w2|e w2]; try discriminate.
  injection Hexit as ->. destruct Hfr as (_ & Hreg & _). simpl in Hreg.
  unfold disconnect. rewrite Hreg, py_list_remove_last by done.
  eexists. split; [done|]. simpl. done.
Qed.

(** X13: the same loop ending by any other exception: the exception leaves the
    handler and the connection stays registered. *)
Lemma websocket_endpoint_error_keeps websocket inbox e w :
  loop_exit inbox (connected websocket w) = Some e →
  e ≠ WebSocketDisconnect →
  ∃ w', websocket_endpoint websocket None inbox w = Failed e w' ∧
        active_connections w' = active_connections w ++ [websocket].
Proof.
  intros Hexit Hne. unfold websocket_endpoint, loop_exit, connected in *.
  simpl in *.
  pose proof (receive_loop_frame inbox
    (set_active_connections (active_connections w ++ [websocket]) w)) as Hfr.
  destruct (receive_loop _ _) as [w2|w2|e' w2]; try discriminate.
  injection Hexit as ->. destruct Hfr as (_ & Hreg & _). simpl in Hreg.
  exists w2. split; [|done]. by destruct e.
Qed.

(** Client 1 connects, has vendor [v1] move, and goes away. *)
Lemma websocket_endpoint_disconnect_releases_witness :
  ∃ w', websocket_endpoint 1%nat None [inl v1_moves; inr WebSocketDisconnect]
          (serving [2]%nat) = Returned w' ∧
        (1%nat ∉ active_connections w') ∧
        active_connections w' = [2]%nat.
Proof.
  apply (websocket_endpoint_disconnect_releases 1%nat
           [inl v1_moves; inr WebSocketDisconnect] (serving [2]%nat)).
  - simpl. rewrite not_elem_of_cons. split; [lia | apply not_elem_of_nil].
  - vm_compute. reflexivity.
Defined.

(** C8 as the specification words it fails: a message without a ["type"]
    ends the handler with a [KeyError] and its connection still
    registered. *)
Lemma websocket_endpoint_error_leaks :
  let r := websocket_endpoint 1%nat None [inl (JObj [])] world0 in
  (1%nat ∉ active_connections world0) ∧
  r = Failed (KeyError "type") (serving [1]%nat) ∧
  terminated r = true ∧
  ¬ (1%nat ∉ active_connections (run_world r)).
Proof.
  split_and!.
  - apply not_elem_of_nil.
  - vm_compute. reflexivity.
  - reflexivity.
  - intros H. apply H. vm_compute. apply list_elem_of_here.
Qed.

(** ** Order placement *)

Lemma randint_range a b raw : a ≤ b → a ≤ randint a b raw ≤ b.
Proof.
  intros Hab. unfold randint.
  pose proof (Z.mod_pos_bound raw (b - a + 1)). lia.
Qed.

(** Every integer of the range is drawn by some entropy. *)
Lemma randint_onto a b n : a ≤ n ≤ b → randint a b (n - a) = n.
Proof. intros Hn. unfold randint. rewrite Z.mod_small; lia. Qed.

(** For a vendor of the table the order is appended first; the rest is the
    broadcast, and the response if the broadcast returns. *)
Lemma place_order_known order raw v w :
  VENDORS w !! vendor_id order = Some v →
  place_order order raw w
  = match broadcast (new_order_message (vendor_id order) (order_of order raw))
            (set_VENDORS
               (<[vendor_id order := with_order (order_of order raw) v]>
                  (VENDORS w)) w) with
    | Ret _ w' => Ret (order_placed (randint 1000 9999 raw)) w'
    | Raise e w' => Raise e w'
    end.
Proof.
  intros Hv. unfold place_order. rewrite Hv.
  erewrite bind_Ret by (by apply update_vendor_Some).
  unfold mbind, M_bind. fold (order_of order raw).
  by destruct (broadcast _ _).
Qed.

Lemma place_order_response_id order raw w n :
  response_order_id (place_order order raw w) = Some n →
  n = randint 1000 9999 raw.
Proof.
  destruct (VENDORS w !! vendor_id order) as [v|] eqn:Hv.
  - rewrite (place_order_known order raw v w Hv).
    destruct (broadcast _ _); simpl; congruence.
  - unfold place_order. rewrite Hv. simpl. discriminate.
Qed.

(** C6, as the code has it: an order for a vendor of the table appends
    one entry with status ["Pending"] to the vendor's order list, whatever
    the sockets do; and when the registered sockets accept the writes it
    delivers to each registered connection one [new_order] message whose
    embedded order has the id of that entry, and returns the success
    response with the same id. *)
Theorem place_order_known_vendor
    (order : Order) (raw : Z) (v : vendor) (w : world) :
  VENDORS w !! vendor_id order = Some v →
  let w' := final (place_order order raw w) in
  ∃ o : order_data,
    o_status o = "Pending" ∧
    (∃ v', VENDORS w' !! vendor_id order = Some v' ∧
           v_orders v' = v_orders v ++ [o]) ∧
    (sends_ok w →
     place_order order raw w = Ret (order_placed (o_id o)) w' ∧
     (∃ message,
        delivered w' = delivered w ++ fan_out message (active_connections w) ∧
        message_type message = Some (JStr "new_order") ∧
        message_order_id message = Some (o_id o)) ∧
     response_order_id (place_order order raw w) = Some (o_id o)).
Proof.
  intros Hv w'. subst w'. exists (order_of order raw).
  rewrite (place_order_known order raw v w Hv).
  split_and!; [done| |].
  - match goal with |- context [broadcast ?m ?w1] =>
      destruct (broadcast_frame m w1) as [d Hd];
      destruct (broadcast m w1) as [[] w2|e w2]
    end; simpl in *; subst w2; simpl.
    all: eexists; by rewrite lookup_insert_eq.
  - intros Hok. rewrite broadcast_ok by done. simpl.
    split_and!; [done| |done].
    by exists (new_order_message (vendor_id order) (order_of order raw)).
Qed.

Lemma place_order_known_vendor_witness :
  let w' := final (place_order chai 234 (serving [1; 2]%nat)) in
  ∃ o : order_data,
    o_status o = "Pending" ∧
    (∃ v', VENDORS w' !! "v1" = Some v' ∧ v_orders v' = [] ++ [o]) ∧
    place_order chai 234 (serving [1; 2]%nat)
    = Ret (order_placed (o_id o)) w' ∧
    (∃ message,
       delivered w' = [] ++ fan_out message [1; 2]%nat ∧
       message_type message = Some (JStr "new_order") ∧
       message_order_id message = Some (o_id o)) ∧
    response_order_id (place_order chai 234 (serving [1; 2]%nat))
    = Some (o_id o).
Proof.
  assert (Hv : VENDORS (serving [1; 2]%nat) !! vendor_id chai
               = Some (mk_vendor "v1" "Chai Point"
                         (f64 8054096836101040 (-48))
                         (f64 5433100369213260 (-46))
                         "☕" "Beverages")) by (vm_compute; reflexivity).
  destruct (place_order_known_vendor chai 234 _ (serving [1; 2]%nat) Hv)
    as (o & Hst & Hord & Hsent).
  exists o. destruct (Hsent (sends_ok_serving [1; 2]%nat)) as (H1 & H2 & H3).
  split_and!; [exact Hst | exact Hord | exact H1 | exact H2 | exact H3].
Defined.

(** C6 as the specification words it fails: with client 2 gone, an order
    for vendor [v1] is written to client 1 only and [place_order] raises:
    the caller gets no success response and no order id. *)
Lemma place_order_no_response :
  let r := place_order chai 234 second_gone in
  is_Some (VENDORS second_gone !! vendor_id chai) ∧
  raised r = Some RuntimeError ∧
  response_order_id r = None ∧
  delivered (final r)
  = [(1%nat, new_order_message "v1" (order_of chai 234))] ∧
  ¬ (∃ n w', r = Ret (order_placed n) w').
Proof.
  split_and!.
  - eexists. vm_compute. reflexivity.
  - vm_compute. reflexivity.
  - vm_compute. reflexivity.
  - vm_compute. reflexivity.
  - intros (n & w' & H). apply (f_equal raised) in H. vm_compute in H.
    discriminate.
Qed.

(** C7: an order for a vendor id that is no key of the table returns the
    not-found response, which carries no order id; nothing is delivered
    and the world, the vendor table in it, is as it was. *)
Theorem place_order_unknown_vendor (order : Order) (raw : Z) (w : world) :
  VENDORS w !! vendor_id order = None →
  place_order order raw w = Ret vendor_not_found w ∧
  response_order_id (place_order order raw w) = None ∧
  delivered (final (place_order order raw w)) = delivered w ∧
  VENDORS (final (place_order order raw w)) = VENDORS w.
Proof. intros Hv. unfold place_order. rewrite Hv. done. Qed.

Lemma place_order_unknown_vendor_witness :
  place_order stranger 234 (serving [1; 2]%nat)
  = Ret vendor_not_found (serving [1; 2]%nat) ∧
  response_order_id (place_order stranger 234 (serving [1; 2]%nat)) = None ∧
  delivered (final (place_order stranger 234 (serving [1; 2]%nat))) = [] ∧
  VENDORS (final (place_order stranger 234 (serving [1; 2]%nat))) = VENDORS0.
Proof.
  apply (place_order_unknown_vendor stranger 234 (serving [1; 2]%nat)).
  vm_compute. reflexivity.
Defined.

(** C9: the order id of a success response is an integer of 1000..9999. *)
Theorem place_order_id_range (order : Order) (raw : Z) (w : world) (n : Z) :
  response_order_id (place_order order raw w) = Some n →
  1000 ≤ n ≤ 9999.
Proof.
  intros H. apply place_order_response_id in H as ->.
  apply randint_range. lia.
Qed.

Lemma place_order_id_range_witness :
  response_order_id (place_order chai 123456 (serving [1; 2]%nat)) = Some 7456
  ∧ 1000 ≤ 7456 ≤ 9999.
Proof.
  assert (H : response_order_id (place_order chai 123456 (serving [1; 2]%nat))
              = Some 7456) by (vm_compute; reflexivity).
  split; [exact H | exact (place_order_id_range _ _ _ _ H)].
Defined.

(** C10: an order for a vendor of the table changes, of the shared state,
    that vendor's order list by one appended entry and nothing else: the
    vendor's other fields, the other vendors, the menu table and the
    registry are as they were, whether the broadcast returns or raises. *)
Theorem place_order_frame (order : Order) (raw : Z) (v : vendor) (w : world) :
  VENDORS w !! vendor_id order = Some v →
  let w' := final (place_order order raw w) in
  (∃ v' o, VENDORS w' !! vendor_id order = Some v' ∧
           v_orders v' = v_orders v ++ [o] ∧
           v_id v' = v_id v ∧ v_name v' = v_name v ∧
           v_lat v' = v_lat v ∧ v_lng v' = v_lng v ∧
           v_icon v' = v_icon v ∧ v_category v' = v_category v) ∧
  (∀ key, key ≠ vendor_id order → VENDORS w' !! key = VENDORS w !! key) ∧
  MENU w' = MENU w ∧
  active_connections w' = active_connections w.
Proof.
  intros Hv w'. subst w'. rewrite (place_order_known order raw v w Hv).
  match goal with |- context [broadcast ?m ?w1] =>
    destruct (broadcast_frame m w1) as [d Hd];
    destruct (broadcast m w1) as [[] w2|e w2]
  end; simpl in *; subst w2; simpl.
  all: split_and!; [|intros key Hne; by rewrite lookup_insert_ne|done|done].
  all: exists (with_order (order_of order raw) v), (order_of order raw).
  all: by rewrite lookup_insert_eq.
Qed.

Lemma place_order_frame_witness :
  let w := second_gone in
  let w' := final (place_order chai 234 w) in
  (∃ v' o, VENDORS w' !! "v1" = Some v' ∧
           v_orders v' = [] ++ [o] ∧
           v_id v' = "v1" ∧ v_name v' = "Chai Point" ∧
           v_lat v' = f64 8054096836101040 (-48) ∧
           v_lng v' = f64 5433100369213260 (-46) ∧
           v_icon v' = "☕" ∧ v_category v' = "Beverages") ∧
  (∀ key, key ≠ "v1" → VENDORS w' !! key = VENDORS w !! key) ∧
  MENU w' = MENU w ∧
  active_connections w' = active_connections w.
Proof.
  refine (place_order_frame chai 234
            (mk_vendor "v1" "Chai Point"
               (f64 8054096836101040 (-48)) (f64 5433100369213260 (-46))
               "☕" "Beverages")
            second_gone _).
  vm_compute. reflexivity.
Defined.

(** ** Runs of orders *)

(** C4, as the code has it: in a run of successful placements the order
    ids are, in order, the integers the random generator draws for the
    calls; no id is compared with an earlier one, so the ids are pairwise
    different exactly when the draws are. *)
Theorem place_orders_ids_are_draws (reqs : list (Order * Z)) (w : world) :
  all_placed reqs w →
  issued_ids reqs w = drawn_ids reqs ∧
  (NoDup (issued_ids reqs w) ↔ NoDup (drawn_ids reqs)).
Proof.
  intros Hall.
  assert (E : issued_ids reqs w = drawn_ids reqs); [|by rewrite E].
  unfold issued_ids, drawn_ids, all_placed in *.
  revert w Hall. induction reqs as [|[order raw] reqs IH]; intros w Hall;
    simpl in *; [done|].
  apply Forall_cons in Hall as [[n Hn] Hall].
  rewrite Hn. rewrite (place_order_response_id _ _ _ _ Hn). simpl.
  f_equal. by apply IH.
Qed.

Lemma place_orders_ids_are_draws_witness :
  issued_ids [(chai, 234); (chai, 235)] (serving [1; 2]%nat)
  = drawn_ids [(chai, 234); (chai, 235)] ∧
  (NoDup (issued_ids [(chai, 234); (chai, 235)] (serving [1; 2]%nat))
   ↔ NoDup (drawn_ids [(chai, 234); (chai, 235)])).
Proof.
  apply (place_orders_ids_are_draws [(chai, 234); (chai, 235)]
           (serving [1; 2]%nat)).
  unfold all_placed. vm_compute.
  repeat constructor; eexists; reflexivity.
Defined.

(** C4 as the specification words it fails: two successful orders whose
    draws agree get the same id 1234, and both stay in the vendor's order
    list as ["Pending"]. *)
Lemma place_orders_ids_collide :
  let reqs := [(chai, 234); (chai, 234)] in
  all_placed reqs world0 ∧
  issued_ids reqs world0 = [1234; 1234] ∧
  ¬ NoDup (issued_ids reqs world0) ∧
  (let w1 := final (place_order chai 234 world0) in
   let w2 := final (place_order chai 234 w1) in
   (λ v, map (λ o, (o_id o, o_status o)) (v_orders v))
     <$> (VENDORS w2 !! "v1")
   = Some [(1234, "Pending"); (1234, "Pending")]).
Proof.
  split_and!.
  - unfold all_placed. vm_compute. repeat constructor; eexists; reflexivity.
  - vm_compute. reflexivity.
  - intros H. vm_compute in H. apply NoDup_cons in H as [H _].
    apply H, list_elem_of_here.
  - vm_compute. reflexivity.
Qed.

(** * Further properties of the code *)

(** ** The registry, continued *)

(** X1: registering a connection the registry does not hold and removing it
    again gives back the world as it was. *)
Theorem connect_disconnect_round_trip (websocket : WebSocket) (w : world) :
  websocket ∉ active_connections w →
  (connect websocket None ≫= λ _, disconnect websocket) w = Ret () w.
Proof.
  intros Hfresh. unfold connect, accept, modify, disconnect, mbind, M_bind,
    mret, M_ret. simpl.
  rewrite py_list_remove_last by done. by destruct w.
Qed.

Lemma connect_disconnect_round_trip_witness :
  (connect 3%nat None ≫= λ _, disconnect 3%nat) (serving [1; 2]%nat)
  = Ret () (serving [1; 2]%nat).
Proof.
  apply (connect_disconnect_round_trip 3%nat (serving [1; 2]%nat)).
  simpl. rewrite !not_elem_of_cons.
  split_and!; [lia | lia | apply not_elem_of_nil].
Defined.

(** X2: a [disconnect] that returns has taken one occurrence of the connection
    out of the registry, kept every other entry, and changed nothing else:
    a connection registered twice is still registered once. *)
Theorem disconnect_removes_one (websocket : WebSocket) (w w' : world) :
  disconnect websocket w = Ret () w' →
  active_connections w ≡ₚ websocket :: active_connections w' ∧
  w' = set_active_connections (active_connections w') w.
Proof.
  intros H.
  destruct (decide (websocket ∈ active_connections w)) as [Hin|Hout].
  - destruct (disconnect_present _ _ Hin) as (l1 & l2 & E & _ & R).
    rewrite R in H. injection H as <-. simpl. split; [|done].
    rewrite E. symmetry. apply Permutation_middle.
  - unfold disconnect in H. by rewrite py_list_remove_absent in H.
Qed.

Lemma disconnect_removes_one_witness :
  active_connections (serving [1; 2; 1]%nat)
    ≡ₚ 1%nat :: active_connections (serving [2; 1]%nat) ∧
  serving [2; 1]%nat
  = set_active_connections (active_connections (serving [2; 1]%nat))
      (serving [1; 2; 1]%nat).
Proof.
  apply (disconnect_removes_one 1%nat (serving [1; 2; 1]%nat)
           (serving [2; 1]%nat)).
  vm_compute. reflexivity.
Defined.

(** X3: [disconnect] returns exactly when the connection is registered. *)
Theorem disconnect_returns_iff (websocket : WebSocket) (w : world) :
  raised (disconnect websocket w) = None ↔ websocket ∈ active_connections w.
Proof.
  split.
  - intros H. destruct (decide (websocket ∈ active_connections w)); [done|].
    unfold disconnect in H. by rewrite py_list_remove_absent in H.
  - intros Hin. destruct (disconnect_present _ _ Hin) as (l1 & l2 & _ & _ & ->).
    done.
Qed.

(** X4: in a registry without duplicates a [disconnect] that returns leaves
    the connection unregistered and the registry without duplicates. *)
Theorem disconnect_NoDup (websocket : WebSocket) (w w' : world) :
  NoDup (active_connections w) →
  disconnect websocket w = Ret () w' →
  (websocket ∉ active_connections w') ∧ NoDup (active_connections w').
Proof.
  intros Hnd H.
  destruct (decide (websocket ∈ active_connections w)) as [Hin|Hout].
  - destruct (disconnect_present _ _ Hin) as (l1 & l2 & E & Hl1 & R).
    rewrite R in H. injection H as <-. simpl.
    rewrite E in Hnd. apply NoDup_app in Hnd as (Hnd1 & Hdisj & Hnd2).
    apply NoDup_cons in Hnd2 as [Hl2 Hnd2]. split.
    + rewrite elem_of_app. by intros [?|?].
    + apply NoDup_app. split_and!; [done| |done].
      intros x Hx1 Hx2. apply (Hdisj x Hx1). by apply list_elem_of_further.
  - unfold disconnect in H. by rewrite py_list_remove_absent in H.
Qed.

Lemma disconnect_NoDup_witness :
  (2%nat ∉ active_connections (serving [1; 3]%nat)) ∧
  NoDup (active_connections (serving [1; 3]%nat)).
Proof.
  apply (disconnect_NoDup 2%nat (serving [1; 2; 3]%nat) (serving [1; 3]%nat)).
  - simpl. repeat (apply NoDup_cons; split;
      [rewrite ?not_elem_of_cons; split_and?; try lia; apply not_elem_of_nil|]).
    apply NoDup_nil. done.
  - vm_compute. reflexivity.
Defined.

(** ** Broadcast, continued *)

Lemma for_each_send_raised message (l : list WebSocket) w :
  raised (for_each (λ c, send_json c message) l w) = None
  ↔ ∀ c, c ∈ l → broken w !! c = None.
Proof.
  revert w. induction l as [|c l IH]; intros w; simpl.
  - split; [|done]. intros _ c Hc. by apply elem_of_nil in Hc.
  - unfold mbind, M_bind. unfold send_json at 1.
    destruct (broken w !! c) as [e|] eqn:Hc; simpl.
    + split; [done|]. intros H. specialize (H c (list_elem_of_here _ _)).
      congruence.
    + rewrite IH. simpl. split.
      * intros H c' Hc'. apply elem_of_cons in Hc' as [->|Hc']; auto.
      * intros H c' Hc'. apply H. by apply list_elem_of_further.
Qed.

(** X5: [broadcast] returns exactly when every registered socket accepts the
    write; one broken socket in the registry makes it raise. *)
Theorem broadcast_returns_iff (message : json) (w : world) :
  raised (broadcast message w) = None ↔ sends_ok w.
Proof. unfold broadcast, sends_ok. apply for_each_send_raised. Qed.

Lemma for_each_send_prefix message (l : list WebSocket) w :
  ∃ n, final (for_each (λ c, send_json c message) l w)
       = set_delivered (delivered w ++ fan_out message (take n l)) w.
Proof.
  revert w. induction l as [|c l IH]; intros w; simpl.
  - exists 0%nat. simpl. by rewrite app_nil_r, set_delivered_id.
  - unfold mbind, M_bind. unfold send_json at 1.
    destruct (broken w !! c) as [e|].
    + exists 0%nat. simpl. by rewrite app_nil_r, set_delivered_id.
    + destruct (IH (set_delivered (delivered w ++ [(c, message)]) w))
        as [n Hn].
      exists (S n). rewrite Hn. simpl. by rewrite <- app_assoc.
Qed.

(** X6: whatever the sockets do, [broadcast] changes the wire only, and what it
    writes is the message itself, once to each of the first so many
    registered connections, in the order of the registry. *)
Theorem broadcast_writes_prefix (message : json) (w : world) :
  ∃ n, final (broadcast message w)
       = set_delivered
           (delivered w ++ fan_out message (first_connections n w)) w.
Proof. unfold broadcast, first_connections. apply for_each_send_prefix. Qed.

(** ** Inbound messages, continued *)

(** X7: a message whose ["type"] is neither ["location_update"] nor
    ["order_update"] is dropped in silence: no exception, nothing sent,
    nothing changed. *)
Theorem unknown_type_ignored
    (kvs : list (string * json)) (type : json) (w : world) :
  dict_get "type" kvs = Some type →
  eq_str type "location_update" = false →
  eq_str type "order_update" = false →
  handle_message (JObj kvs) w = Ret () w.
Proof.
  intros Hty Hloc Hord. unfold handle_message.
  erewrite bind_Ret by (by apply getitem_Some). rewrite Hloc.
  erewrite bind_Ret by (by apply getitem_Some). by rewrite Hord.
Qed.

Lemma unknown_type_ignored_witness :
  handle_message ping (serving [1; 2]%nat) = Ret () (serving [1; 2]%nat).
Proof.
  apply (unknown_type_ignored _ (JStr "ping") (serving [1; 2]%nat));
    reflexivity.
Defined.

(** X8: a received value without a ["type"] raises out of the loop body with
    the world untouched: [KeyError] for a dict, [TypeError] for anything
    else. *)
Theorem untyped_message_raises (data : json) (w : world) :
  message_type data = None →
  handle_message data w
  = Raise (match data with JObj _ => KeyError "type" | _ => TypeError end) w.
Proof.
  intros Hty. unfold handle_message, mbind, M_bind, getitem.
  destruct data; try done. simpl in Hty. by rewrite Hty.
Qed.

Lemma untyped_message_raises_witness :
  handle_message (JArr [JStr "location_update"]) (serving [1; 2]%nat)
  = Raise TypeError (serving [1; 2]%nat).
Proof.
  apply (untyped_message_raises (JArr [JStr "location_update"])
           (serving [1; 2]%nat)).
  reflexivity.
Defined.

(** X9: a [location_update] for a vendor of the table with a ["lat"] and no
    ["lng"] stores the latitude, then raises [KeyError]: the vendor is left
    with the new latitude and the old longitude, and nothing is sent. *)
Theorem location_update_without_lng
    (kvs : list (string * json)) (type lat : json) (key : string)
    (v : vendor) (w : world) :
  dict_get "type" kvs = Some type →
  eq_str type "location_update" = true →
  dict_get "id" kvs = Some (JStr key) →
  VENDORS w !! key = Some v →
  dict_get "lat" kvs = Some lat →
  dict_get "lng" kvs = None →
  handle_message (JObj kvs) w
  = Raise (KeyError "lng")
          (set_VENDORS (<[key := with_lat lat v]> (VENDORS w)) w).
Proof.
  intros Hty Hloc Hid Hv Hlat Hlng. unfold handle_message.
  erewrite bind_Ret by (by apply getitem_Some). rewrite Hloc.
  erewrite bind_Ret by (by apply getitem_Some).
  erewrite bind_Ret by (unfold in_VENDORS; by rewrite Hv).
  cbv beta iota.
  erewrite bind_Ret by (by apply getitem_Some).
  erewrite bind_Ret by (by apply update_vendor_Some).
  unfold mbind, M_bind, getitem. by rewrite Hlng.
Qed.

Lemma location_update_without_lng_witness :
  handle_message half_move (serving [1; 2]%nat)
  = Raise (KeyError "lng")
      (set_VENDORS
         (<["v1" := with_lat (f64 8055813833458975 (-48))
                      (mk_vendor "v1" "Chai Point"
                         (f64 8054096836101040 (-48))
                         (f64 5433100369213260 (-46))
                         "☕" "Beverages")]>
            (VENDORS (serving [1; 2]%nat)))
         (serving [1; 2]%nat)).
Proof.
  apply (location_update_without_lng _ (JStr "location_update")
           (f64 8055813833458975 (-48)) "v1").
  - reflexivity.
  - reflexivity.
  - reflexivity.
  - vm_compute. reflexivity.
  - reflexivity.
  - reflexivity.
Defined.

(** X10: an [order_update] is handled as a bare [broadcast] of the message as
    received: no field of it is looked at and the vendor table, the stored
    orders in it, is not touched. *)
Theorem order_update_forwarded
    (kvs : list (string * json)) (type : json) (w : world) :
  dict_get "type" kvs = Some type →
  eq_str type "order_update" = true →
  handle_message (JObj kvs) w = broadcast (JObj kvs) w ∧
  VENDORS (final (handle_message (JObj kvs) w)) = VENDORS w.
Proof.
  intros Hty Hord.
  assert (E : handle_message (JObj kvs) w = broadcast (JObj kvs) w).
  { unfold handle_message.
    erewrite bind_Ret by (by apply getitem_Some).
    destruct type as [ | | | |s| | ]; try discriminate.
    simpl in Hord. apply String.eqb_eq in Hord as ->. simpl.
    erewrite bind_Ret by (by apply getitem_Some). done. }
  split; [done|]. rewrite E.
  destruct (broadcast_frame (JObj kvs) w) as [d ->]. done.
Qed.

Lemma order_update_forwarded_witness :
  handle_message hello second_gone = broadcast hello second_gone ∧
  VENDORS (final (handle_message hello second_gone)) = VENDORS second_gone.
Proof.
  apply (order_update_forwarded _ (JStr "order_update") second_gone);
    reflexivity.
Defined.

(** A [location_update] stores the coordinates whether or not the
    broadcast that follows fails; here client 2 is gone and the write to it
    raises. *)
Lemma location_update_stored_anyway_witness :
  VENDORS (final (handle_message v1_moves second_gone))
  = <["v1" := moved (f64 8055813833458975 (-48))
                (f64 5433170737957437 (-46))
                (mk_vendor "v1" "Chai Point"
                   (f64 8054096836101040 (-48)) (f64 5433100369213260 (-46))
                   "☕" "Beverages")]>
      (VENDORS second_gone).
Proof.
  apply (location_update_stored_anyway _ (JStr "location_update") "v1"
           (f64 8055813833458975 (-48)) (f64 5433170737957437 (-46))).
  - reflexivity.
  - reflexivity.
  - reflexivity.
  - vm_compute. reflexivity.
  - reflexivity.
  - reflexivity.
Defined.

(** ** The handler, continued *)

Lemma handle_order_update kvs type w :
  dict_get "type" kvs = Some type →
  eq_str type "order_update" = true →
  handle_message (JObj kvs) w = broadcast (JObj kvs) w.
Proof.
  intros Hty Hord. unfold handle_message.
  erewrite bind_Ret by (by apply getitem_Some).
  destruct type as [ | | | |s| | ]; try discriminate.
  simpl in Hord. apply String.eqb_eq in Hord as ->. simpl.
  erewrite bind_Ret by (by apply getitem_Some). done.
Qed.

Lemma receive_loop_order_updates updates tail w :
  Forall (λ kvs, ∃ type, dict_get "type" kvs = Some type ∧
                         eq_str type "order_update" = true) updates →
  sends_ok w →
  receive_loop (arriving updates ++ tail) w
  = receive_loop tail (forwarded updates w).
Proof.
  unfold arriving, forwarded.
  revert w. induction updates as [|kvs updates IH]; intros w Hall Hok; simpl.
  - by rewrite app_nil_r, set_delivered_id.
  - apply Forall_cons in Hall as [(type & Hty & Hord) Hall].
    rewrite (handle_order_update kvs type w Hty Hord).
    rewrite broadcast_ok by done.
    rewrite IH by done. simpl. by rewrite <- app_assoc.
Qed.

(** X12: a series of [order_update] messages is forwarded in arrival
    order: the registered sockets accepting the writes, the loop writes
    the first message to every registered connection, then the second to
    every one, and so on, and then waits for the next message; and when
    what arrives next is a value without a ["type"], the loop ends there
    with that value's exception, whatever arrives after it. *)
Theorem receive_loop_forwards_in_order
    (updates : list (list (string * json))) (w : world) :
  Forall (λ kvs, ∃ type, dict_get "type" kvs = Some type ∧
                         eq_str type "order_update" = true) updates →
  sends_ok w →
  receive_loop (arriving updates) w = Waiting (forwarded updates w) ∧
  ∀ data rest,
    message_type data = None →
    receive_loop (arriving updates ++ inl data :: rest) w
    = Failed (match data with JObj _ => KeyError "type" | _ => TypeError end)
             (forwarded updates w).
Proof.
  intros Hall Hok. split.
  - rewrite <- (app_nil_r (arriving updates)).
    by rewrite receive_loop_order_updates.
  - intros data rest Hty. rewrite receive_loop_order_updates by done.
    simpl. unfold handle_message, mbind, M_bind, getitem.
    destruct data; try done. simpl in Hty. by rewrite Hty.
Qed.

Lemma receive_loop_forwards_in_order_witness :
  receive_loop (arriving accepted_then_rejected) (serving [1; 2]%nat)
  = Waiting (forwarded accepted_then_rejected (serving [1; 2]%nat)) ∧
  ∀ data rest,
    message_type data = None →
    receive_loop (arriving accepted_then_rejected ++ inl data :: rest)
      (serving [1; 2]%nat)
    = Failed (match data with JObj _ => KeyError "type" | _ => TypeError end)
             (forwarded accepted_then_rejected (serving [1; 2]%nat)).
Proof.
  apply (receive_loop_forwards_in_order accepted_then_rejected
           (serving [1; 2]%nat)).
  - repeat constructor; exists (JStr "order_update"); split; reflexivity.
  - apply sends_ok_serving.
Defined.

(** A malformed message ends the handler with its connection left in the
    registry. *)
Lemma websocket_endpoint_error_keeps_witness :
  ∃ w', websocket_endpoint 3%nat None [inl v1_moves; inl (JObj [])]
          (serving [1; 2]%nat) = Failed (KeyError "type") w' ∧
        active_connections w' = [1; 2]%nat ++ [3%nat].
Proof.
  apply (websocket_endpoint_error_keeps 3%nat [inl v1_moves; inl (JObj [])]
           (KeyError "type") (serving [1; 2]%nat)).
  - vm_compute. reflexivity.
  - discriminate.
Defined.

(** ** What the websocket traffic keeps *)

Section keeps.
Variable R : world → world → Prop.
Hypothesis R_refl : ∀ w, R w w.
Hypothesis R_trans : ∀ w1 w2 w3, R w1 w2 → R w2 w3 → R w1 w3.
Hypothesis R_wire : ∀ d w, R w (set_delivered d w).
Hypothesis R_registry : ∀ l w, R w (set_active_connections l w).
Hypothesis R_lat : ∀ key x, keeps R (update_vendor key (with_lat x)).
Hypothesis R_lng : ∀ key x, keeps R (update_vendor key (with_lng x)).

Lemma keeps_bind {A B : Type} (m : M A) (k : A → M B) :
  keeps R m → (∀ a, keeps R (k a)) → keeps R (m ≫= k).
Proof.
  intros Hm Hk w. unfold mbind, M_bind.
  specialize (Hm w). destruct (m w) as [a w1|e w1]; simpl in *; [|done].
  eapply R_trans; [exact Hm | apply Hk].
Qed.

Lemma keeps_getitem d key : keeps R (getitem d key).
Proof.
  intros w. unfold getitem. destruct d; try apply R_refl.
  destruct (dict_get key kvs); apply R_refl.
Qed.

Lemma keeps_in_VENDORS x : keeps R (in_VENDORS x).
Proof.
  intros w. unfold in_VENDORS.
  destruct x; try apply R_refl. destruct (VENDORS w !! s); apply R_refl.
Qed.

Lemma keeps_broadcast message : keeps R (broadcast message).
Proof. intros w. destruct (broadcast_frame message w) as [d ->]. apply R_wire. Qed.

Lemma keeps_handle_message data : keeps R (handle_message data).
Proof.
  unfold handle_message.
  apply keeps_bind; [apply keeps_getitem | intros type].
  destruct (eq_str type "location_update").
  - apply keeps_bind; [apply keeps_getitem | intros vendor].
    apply keeps_bind; [apply keeps_in_VENDORS | intros [key|]].
    + apply keeps_bind; [apply keeps_getitem | intros lat].
      apply keeps_bind; [apply R_lat | intros _].
      apply keeps_bind; [apply keeps_getitem | intros lng].
      apply keeps_bind; [apply R_lng | intros _].
      apply keeps_broadcast.
    + intros w. apply R_refl.
  - apply keeps_bind; [apply keeps_getitem | intros type'].
    destruct (eq_str type' "order_update");
      [apply keeps_broadcast | intros w; apply R_refl].
Qed.

Lemma keeps_receive_loop inbox w : R w (run_world (receive_loop inbox w)).
Proof.
  revert w. induction inbox as [|[data|e] inbox IH]; intros w; simpl;
    try apply R_refl.
  pose proof (keeps_handle_message data w) as H.
  destruct (handle_message data w) as [[] w1|e w1]; simpl in *; [|done].
  eapply R_trans; [exact H | apply IH].
Qed.

Lemma keeps_websocket_endpoint websocket handshake inbox w :
  R w (run_world (websocket_endpoint websocket handshake inbox w)).
Proof.
  unfold websocket_endpoint.
  destruct handshake as [e|]; simpl; [apply R_refl|].
  pose proof (keeps_receive_loop inbox
    (set_active_connections (active_connections w ++ [websocket]) w)) as H.
  assert (H1 : R w (run_world (receive_loop inbox
    (set_active_connections (active_connections w ++ [websocket]) w))))
    by (eapply R_trans; [apply R_registry | exact H]).
  destruct (receive_loop _ _) as [w2|w2|e w2]; simpl in *; try done.
  destruct e; simpl; try done.
  unfold disconnect. destruct (py_list_remove _ _); simpl; [|done].
  eapply R_trans; [exact H1 | apply R_registry].
Qed.
End keeps.

Lemma tables_kept_refl w : tables_kept w w.
Proof. done. Qed.

Lemma tables_kept_trans w1 w2 w3 :
  tables_kept w1 w2 → tables_kept w2 w3 → tables_kept w1 w3.
Proof.
  intros [HM1 HV1] [HM2 HV2]. split; [congruence|].
  intros key. by rewrite HV2, HV1.
Qed.

Lemma tables_kept_position key f :
  (∀ v, static (f v) = static v) →
  keeps tables_kept (update_vendor key f).
Proof.
  intros Hf w. unfold update_vendor.
  destruct (VENDORS w !! key) as [v|] eqn:Hv; simpl; [|done].
  split; [done|]. intros key'. simpl.
  destruct (decide (key = key')) as [<-|Hne].
  - rewrite lookup_insert_eq, Hv. simpl. by rewrite Hf.
  - by rewrite lookup_insert_ne.
Qed.

(** X14: whatever a client sends, and however its handler ends, the handler
    leaves the menu table as it was and changes of the vendors nothing but
    positions: the same keys, and under each the same id, name, icon,
    category and orders, each order with the status it had. *)
Theorem websocket_endpoint_keeps_tables
    (websocket : WebSocket) (handshake : option exn)
    (inbox : list (json + exn)) (w : world) :
  tables_kept w (run_world (websocket_endpoint websocket handshake inbox w)).
Proof.
  apply keeps_websocket_endpoint.
  - apply tables_kept_refl.
  - apply tables_kept_trans.
  - done.
  - done.
  - intros key x. by apply tables_kept_position.
  - intros key x. by apply tables_kept_position.
Qed.

(** X15: a handler leaves the other connections of the registry as they are,
    and a registry without duplicates without duplicates. *)
Theorem websocket_endpoint_registry
    (websocket : WebSocket) (handshake : option exn)
    (inbox : list (json + exn)) (w : world) :
  websocket ∉ active_connections w →
  NoDup (active_connections w) →
  let w' := run_world (websocket_endpoint websocket handshake inbox w) in
  NoDup (active_connections w') ∧
  ∀ c, c ≠ websocket →
       c ∈ active_connections w' ↔ c ∈ active_connections w.
Proof.
  intros Hfresh Hnd w'.
  assert (Hcases : active_connections w' = active_connections w ∨
                   active_connections w' = active_connections w ++ [websocket]).
  { subst w'. unfold websocket_endpoint.
    destruct handshake as [e|]; simpl; [by left|].
    pose proof (receive_loop_frame inbox
      (set_active_connections (active_connections w ++ [websocket]) w))
      as (_ & Hreg & _).
    destruct (receive_loop _ _) as [w2|w2|e w2]; simpl in *; try by right.
    destruct e; simpl; try by right.
    unfold disconnect. rewrite Hreg, py_list_remove_last by done. by left. }
  destruct Hcases as [->| ->].
  - done.
  - split.
    + apply NoDup_app. split_and!; [done| |apply NoDup_singleton].
      intros x Hx ->%list_elem_of_singleton. done.
    + intros c Hc. rewrite elem_of_app, list_elem_of_singleton.
      split; [intros [?|?]; [done|congruence] | by left].
Qed.

Lemma websocket_endpoint_registry_witness :
  let w' := run_world (websocket_endpoint 3%nat None
                         [inl v1_moves; inr WebSocketDisconnect]
                         (serving [1; 2]%nat)) in
  NoDup (active_connections w') ∧
  ∀ c, c ≠ 3%nat →
       c ∈ active_connections w' ↔ c ∈ active_connections (serving [1; 2]%nat).
Proof.
  apply (websocket_endpoint_registry 3%nat None
           [inl v1_moves; inr WebSocketDisconnect] (serving [1; 2]%nat)).
  - simpl. rewrite !not_elem_of_cons.
    split_and!; [lia | lia | apply not_elem_of_nil].
  - simpl. repeat (apply NoDup_cons; split;
      [rewrite ?not_elem_of_cons; split_and?; try lia; apply not_elem_of_nil|]).
    apply NoDup_nil. done.
Defined.

(** ** Order placement, continued *)

(** The vendor table after [place_order], whatever the broadcast does. *)
Lemma place_order_VENDORS order raw w :
  VENDORS (final (place_order order raw w))
  = match VENDORS w !! vendor_id order with
    | Some v =>
        <[vendor_id order := with_order (order_of order raw) v]> (VENDORS w)
    | None => VENDORS w
    end.
Proof.
  destruct (VENDORS w !! vendor_id order) as [v|] eqn:Hv.
  - rewrite (place_order_known order raw v w Hv).
    match goal with |- context [broadcast ?m ?w1] =>
      destruct (broadcast_frame m w1) as [d Hd];
      destruct (broadcast m w1) as [[] w2|e w2]
    end; simpl in *; by subst w2.
  - unfold place_order. by rewrite Hv.
Qed.

Lemma preserves_place_order order raw : preserves (place_order order raw).
Proof.
  intros w. destruct (VENDORS w !! vendor_id order) as [v|] eqn:Hv.
  - rewrite (place_order_known order raw v w Hv).
    match goal with |- context [broadcast ?m ?w1] =>
      destruct (broadcast_frame m w1) as [d Hd];
      destruct (broadcast m w1) as [[] w2|e w2]
    end; simpl in *; by subst w2.
  - unfold place_order. rewrite Hv. apply frame_refl.
Qed.

Lemma orders_world_frame reqs w : frame w (orders_world reqs w).
Proof.
  revert w. induction reqs as [|[order raw] reqs IH]; intros w; simpl;
    [apply frame_refl|].
  eapply frame_trans; [apply preserves_place_order | apply IH].
Qed.

(** X16: when [c] is the first registered socket to refuse the write, with
    exception [e0], an order for a vendor of the table is stored all the
    same, the connections registered before [c] are sent the [new_order]
    message, and the caller gets [e0] instead of a response. *)
Theorem place_order_stored_but_raises
    (order : Order) (raw : Z) (v : vendor)
    (before after : list WebSocket) (c : WebSocket) (e0 : exn) (w : world) :
  VENDORS w !! vendor_id order = Some v →
  active_connections w = before ++ c :: after →
  (∀ c', c' ∈ before → broken w !! c' = None) →
  broken w !! c = Some e0 →
  place_order order raw w
  = Raise e0
      (set_delivered
         (delivered w
          ++ fan_out (new_order_message (vendor_id order) (order_of order raw))
                     before)
         (set_VENDORS
            (<[vendor_id order := with_order (order_of order raw) v]>
               (VENDORS w)) w)).
Proof.
  intros Hv Hreg Hbefore Hc.
  rewrite (place_order_known order raw v w Hv).
  unfold broadcast. simpl. rewrite Hreg, for_each_app.
  erewrite bind_Ret by (by apply for_each_send_ok).
  by erewrite for_each_send_raise.
Qed.

Lemma place_order_stored_but_raises_witness :
  place_order chai 234 second_gone
  = Raise RuntimeError
      (set_delivered
         (delivered second_gone
          ++ fan_out (new_order_message (vendor_id chai) (order_of chai 234))
                     [1%nat])
         (set_VENDORS
            (<[vendor_id chai :=
                 with_order (order_of chai 234)
                   (mk_vendor "v1" "Chai Point"
                      (f64 8054096836101040 (-48))
                      (f64 5433100369213260 (-46))
                      "☕" "Beverages")]>
               (VENDORS second_gone)) second_gone)).
Proof.
  apply (place_order_stored_but_raises chai 234 _ [1%nat] [3%nat] 2%nat
           RuntimeError second_gone).
  - vm_compute. reflexivity.
  - reflexivity.
  - intros c Hc. apply list_elem_of_singleton in Hc as ->. reflexivity.
  - reflexivity.
Defined.

(** X17: after a run of order requests a vendor of the table holds, behind the
    orders it had, one order for each request naming it, in the order of
    the requests, whether or not the broadcasts went through; its position
    and name are as they were. *)
Theorem orders_world_records
    (reqs : list (Order * Z)) (key : string) (v : vendor) (w : world) :
  VENDORS w !! key = Some v →
  ∃ v', VENDORS (orders_world reqs w) !! key = Some v' ∧
        v_orders v' = v_orders v ++ orders_for key reqs ∧
        v_lat v' = v_lat v ∧ v_lng v' = v_lng v ∧ v_name v' = v_name v.
Proof.
  revert v w. induction reqs as [|[order raw] reqs IH]; intros v w Hv.
  - exists v. unfold orders_for. simpl. by rewrite app_nil_r.
  - simpl. set (w1 := final (place_order order raw w)).
    pose proof (place_order_VENDORS order raw w) as HV. fold w1 in HV.
    unfold orders_for.
    destruct (decide (vendor_id order = key)) as [E|Hne].
    + rewrite filter_cons_True by done. rewrite E, Hv in HV.
      destruct (IH (with_order (order_of order raw) v) w1)
        as (v' & Hv' & Ho & Hlat & Hlng & Hname).
      { by rewrite HV, lookup_insert_eq. }
      exists v'. split_and!; try done.
      rewrite Ho. simpl. by rewrite <- app_assoc.
    + rewrite filter_cons_False by done.
      apply (IH v w1). rewrite HV.
      destruct (VENDORS w !! vendor_id order); [|done].
      by rewrite lookup_insert_ne.
Qed.

Lemma orders_world_records_witness :
  ∃ v', VENDORS (orders_world [(chai, 234); (stranger, 5); (chai, 234)]
                   second_gone) !! "v1" = Some v' ∧
        v_orders v' = [] ++ [order_of chai 234; order_of chai 234] ∧
        v_lat v' = f64 8054096836101040 (-48) ∧
        v_lng v' = f64 5433100369213260 (-46) ∧
        v_name v' = "Chai Point".
Proof.
  apply (orders_world_records [(chai, 234); (stranger, 5); (chai, 234)] "v1"
           (mk_vendor "v1" "Chai Point"
              (f64 8054096836101040 (-48)) (f64 5433100369213260 (-46))
              "☕" "Beverages")
           second_gone).
  vm_compute. reflexivity.
Defined.

(** X18: a run of order requests adds no vendor and drops none. *)
Theorem orders_world_same_vendors (reqs : list (Order * Z)) (w : world) :
  dom (VENDORS (orders_world reqs w)) = dom (VENDORS w).
Proof.
  revert w. induction reqs as [|[order raw] reqs IH]; intros w; simpl; [done|].
  rewrite IH, place_order_VENDORS.
  destruct (VENDORS w !! vendor_id order) as [v|] eqn:Hv; [|done].
  rewrite dom_insert_L. apply subseteq_union_1_L, singleton_subseteq_l.
  by apply elem_of_dom_2 in Hv.
Qed.

(** ** The read-only routes *)

(** X19: the order id in a success response is the id of the last order that
    [GET /api/vendors] then shows for the vendor, an order for the item
    asked for, with status ["Pending"]. *)
Theorem place_order_then_get_vendors
    (order : Order) (raw : Z) (w : world) (n : Z) :
  response_order_id (place_order order raw w) = Some n →
  ∃ V v o,
    returned (get_vendors (final (place_order order raw w))) = Some V ∧
    V !! vendor_id order = Some v ∧
    last (v_orders v) = Some o ∧
    o_id o = n ∧ o_item o = item order ∧ o_status o = "Pending".
Proof.
  intros Hn. pose proof (place_order_response_id _ _ _ _ Hn) as ->.
  pose proof (place_order_VENDORS order raw w) as HV.
  destruct (VENDORS w !! vendor_id order) as [v|] eqn:Hv.
  - exists (VENDORS (final (place_order order raw w))),
      (with_order (order_of order raw) v), (order_of order raw).
    split_and!; try done.
    + by rewrite HV, lookup_insert_eq.
    + simpl. apply last_snoc.
  - unfold place_order in Hn. rewrite Hv in Hn. discriminate.
Qed.

Lemma place_order_then_get_vendors_witness :
  ∃ V v o,
    returned (get_vendors (final (place_order chai 234 (serving [1; 2]%nat))))
    = Some V ∧
    V !! "v1" = Some v ∧
    last (v_orders v) = Some o ∧
    o_id o = 1234 ∧ o_item o = "Masala Chai" ∧ o_status o = "Pending".
Proof.
  apply (place_order_then_get_vendors chai 234 (serving [1; 2]%nat) 1234).
  vm_compute. reflexivity.
Defined.

(** X20: the menu a vendor id is answered with is the same before and after any
    handler and any run of order requests: nothing writes the menu table. *)
Theorem get_menu_stable
    (key : string) (websocket : WebSocket) (handshake : option exn)
    (inbox : list (json + exn)) (reqs : list (Order * Z)) (w : world) :
  returned (get_menu key
              (run_world (websocket_endpoint websocket handshake inbox w)))
  = returned (get_menu key w) ∧
  returned (get_menu key (orders_world reqs w)) = returned (get_menu key w).
Proof.
  unfold get_menu. simpl. split.
  - by rewrite (keeps_websocket_endpoint (λ w w', MENU w' = MENU w))
      by (done || congruence || intros ?? w0; unfold update_vendor;
          by destruct (VENDORS w0 !! _)).
  - destruct (orders_world_frame reqs w) as (-> & _). done.
Qed.
